(** * flappybird.py: a shallow embedding of the game's state and tick loop

    The development follows [flappybird.py] top to bottom: the module
    constants, the [Bird] and [PipePair] classes, then [main] split into
    the phases of one pass through its [while not done] loop.

    Python values are modelled as the program has them: an [int] is a [Z];
    a [float] is idealised as a real number (so [math.cos] and [math.pi]
    are [cos] and [PI]); a number that may be either is a [num].  Code that
    can raise runs in the error monad [M]. *)

From Stdlib Require Import ZArith List String Bool Lia Reals Lra Sorted.
Import ListNotations.

Local Open Scope string_scope.
Local Open Scope Z_scope.

(** ** Exceptions and the error monad *)

Inductive exn : Type :=
| NameError    (* a name that no scope binds *)
| TypeError    (* calling a non-callable, a wrong number of arguments *)
| KeyError.    (* a key that a dict does not hold *)

Inductive M (A : Type) : Type :=
| Ok (a : A)
| Raise (e : exn).
Arguments Ok {A} a.
Arguments Raise {A} e.

Definition bind {A B : Type} (m : M A) (k : A -> M B) : M B :=
  match m with
  | Ok a => k a
  | Raise e => Raise e
  end.

Notation "x <- m ;; k" := (bind m (fun x => k))
  (at level 61, m at next level, right associativity).

(** ** Python numbers *)

Inductive num : Type :=
| Int (z : Z)
| Float (r : R).

Definition num_R (n : num) : R :=
  match n with
  | Int z => IZR z
  | Float r => r
  end.

Definition Rleb (a b : R) : bool := if Rle_dec a b then true else false.

(** [a <= b] on Python numbers; two ints are compared as ints. *)
Definition num_le (a b : num) : bool :=
  match a, b with
  | Int x, Int y => x <=? y
  | _, _ => Rleb (num_R a) (num_R b)
  end.

(** [a + b] and [a - b]: int when both are ints, float otherwise. *)
Definition num_add (a b : num) : num :=
  match a, b with
  | Int x, Int y => Int (x + y)
  | _, _ => Float (num_R a + num_R b)
  end.

Definition num_sub (a b : num) : num :=
  match a, b with
  | Int x, Int y => Int (x - y)
  | _, _ => Float (num_R a - num_R b)
  end.

(** C truncation toward zero, as [int(f)] and pygame's [Rect] apply it to a
    float coordinate. *)
Definition trunc (r : R) : Z :=
  if Rle_dec 0 r then Int_part r else - Int_part (- r).

Definition num_int (n : num) : Z :=
  match n with
  | Int z => z
  | Float r => trunc r
  end.

(** ** Values and name resolution *)

Inductive value : Type :=
| VNum (n : num)
| VImage (file : string)
| VTuple (first second : value)
| VObject (what : string).   (* a class, function, module or instance *)

Definition scope : Type := list (string * value).

Fixpoint lookup (name : string) (sc : scope) : option value :=
  match sc with
  | [] => None
  | (k, v) :: rest => if String.eqb name k then Some v else lookup name rest
  end.

(** Reading a name that the function never assigns: its parameters first,
    then the module's globals (the builtins bind none of the names read
    here); an unbound name raises [NameError]. *)
Definition load_name (locals globals : scope) (name : string) : M value :=
  match lookup name locals with
  | Some v => Ok v
  | None =>
      match lookup name globals with
      | Some v => Ok v
      | None => Raise NameError
      end
  end.

(** [v > 0]; a value that is no number is not ordered against an int. *)
Definition gt_zero (v : value) : M bool :=
  match v with
  | VNum n => Ok (negb (num_le n (Int 0)))
  | _ => Raise TypeError
  end.

(** Calling a value: only classes and functions are callable. *)
Definition call_value (f : value) (args : list value) : M value :=
  match f with
  | VObject what => Ok (VObject (what ++ "()"))
  | _ => Raise TypeError
  end.

(** ** Module constants *)

Definition FPS : Z := 60.
Definition FRAME_ANIMATION_WIDTH : Z := 3.
Definition WIN_WIDTH : Z := 284 * 2.
Definition WIN_HEIGHT : Z := 512.

(** The names bound at module level: the imports, the constants, the two
    classes and the functions, and the names the file uses out of
    [from pygame.locals import *] (which exports event and key constants,
    [Rect] and [Color]). *)
Definition module_globals : scope :=
  [ ("math", VObject "module"); ("os", VObject "module");
    ("randint", VObject "function"); ("deque", VObject "class");
    ("pygame", VObject "module");
    ("QUIT", VObject "constant"); ("KEYUP", VObject "constant");
    ("MOUSEBUTTONUP", VObject "constant"); ("USEREVENT", VObject "constant");
    ("K_ESCAPE", VObject "constant"); ("K_PAUSE", VObject "constant");
    ("K_p", VObject "constant"); ("K_UP", VObject "constant");
    ("K_RETURN", VObject "constant"); ("K_SPACE", VObject "constant");
    ("SRCALPHA", VObject "constant"); ("Rect", VObject "class");
    ("FPS", VNum (Int FPS));
    ("FRAME_ANIMATION_WIDTH", VNum (Int FRAME_ANIMATION_WIDTH));
    ("WIN_WIDTH", VNum (Int WIN_WIDTH));
    ("WIN_HEIGHT", VNum (Int WIN_HEIGHT));
    ("Bird", VObject "class"); ("PipePair", VObject "class");
    ("load_images", VObject "function");
    ("frames_to_msec", VObject "function");
    ("msec_to_frames", VObject "function");
    ("main", VObject "function") ].

(** ** pygame.Rect *)

Record Rect : Type := mkRect { left : Z; top : Z; width : Z; height : Z }.

(** [Rect.colliderect]: rectangles of zero width or height collide with
    nothing; otherwise the open interiors must overlap on both axes. *)
Definition colliderect (a b : Rect) : bool :=
  if (width a =? 0) || (height a =? 0) || (width b =? 0) || (height b =? 0)
  then false
  else (Z.min (left a) (left a + width a) <? Z.max (left b) (left b + width b))
    && (Z.min (top a) (top a + height a) <? Z.max (top b) (top b + height b))
    && (Z.max (left a) (left a + width a) >? Z.min (left b) (left b + width b))
    && (Z.max (top a) (top a + height a) >? Z.min (top b) (top b + height b)).

(** [Rect.collidelist]: the index of the first rectangle of the list that
    collides, or [-1]. *)
Fixpoint collidelist_from (i : Z) (r : Rect) (rs : list Rect) : Z :=
  match rs with
  | [] => -1
  | r' :: rest => if colliderect r r' then i else collidelist_from (i + 1) r rest
  end.

Definition collidelist (r : Rect) (rs : list Rect) : Z := collidelist_from 0 r rs.

(** ** class Bird *)

Module Bird.

Definition WIDTH : Z := 32.
Definition HEIGHT : Z := 32.
Definition FRAME_DROP_HEIGHT : Z := 3.
Definition FRAME_JUMP_HEIGHT : Z := 5.
Definition JUMP_STEPS : Z := 20.

(** The attributes of a bird.  The [image] property picks one of the two
    wing images by the clock and only serves drawing. *)
Record t : Type := mk {
  x : Z;
  y : num;
  steps_to_jump : Z;
  img_wingup : string;
  img_wingdown : string
}.

(** [__init__(self, x, y, steps_to_jump, images)], called with the
    positional arguments of the call site: any other number of them is a
    [TypeError], and [images] is unpacked into two. *)
Definition init (args : list value) : M t :=
  match args with
  | [VNum (Int x0); VNum y0; VNum (Int s0); VTuple (VImage up) (VImage down)] =>
      Ok (mk x0 y0 s0 up down)
  | _ => Raise TypeError
  end.

Definition set_y (self : t) (y' : num) : t :=
  mk (x self) y' (steps_to_jump self) (img_wingup self) (img_wingdown self).

Definition set_steps_to_jump (self : t) (s : Z) : t :=
  mk (x self) (y self) s (img_wingup self) (img_wingdown self).

(** What the jump branch subtracts from [y]:
    [FRAME_JUMP_HEIGHT * (1 - math.cos(frac_jump_done * math.pi))] with
    [frac_jump_done = (JUMP_STEPS - steps_to_jump) / float(JUMP_STEPS)]. *)
Definition jump_delta (steps : Z) : R :=
  let frac_jump_done := (IZR (JUMP_STEPS - steps) / IZR JUMP_STEPS)%R in
  (IZR FRAME_JUMP_HEIGHT * (1 - cos (frac_jump_done * PI)))%R.

(** [update(self)].  The condition reads the bare name [steps_to_jump],
    not the attribute: the only local is [self]. *)
Definition update (self : t) : M t :=
  v <- load_name [("self", VObject "Bird")] module_globals "steps_to_jump" ;;
  jumping <- gt_zero v ;;
  if jumping : bool then
    let self := set_y self (num_sub (y self) (Float (jump_delta (steps_to_jump self)))) in
    Ok (set_steps_to_jump self (steps_to_jump self - 1))
  else
    Ok (set_y self (num_add (y self) (Int FRAME_DROP_HEIGHT))).

(** The [rect] property: [Rect(self.x, self.y, Bird.WIDTH, Bird.HEIGHT)]. *)
Definition rect (self : t) : Rect :=
  mkRect (x self) (num_int (y self)) WIDTH HEIGHT.

End Bird.

(** ** class PipePair *)

Module PipePair.

Definition WIDTH : Z := 80.
Definition PIECE_HEIGHT : Z := 32.
Definition ADD_INTERVAL : Z := 3000.

(** The attributes the game logic reads; the pre-rendered [image] surface
    only serves drawing. *)
Record t : Type := mk {
  x : Z;
  score_counted : bool;
  top_pieces : Z;
  bottom_pieces : Z
}.

(** [int((WIN_HEIGHT - 3 * Bird.HEIGHT - 3 * PipePair.PIECE_HEIGHT) /
    PipePair.PIECE_HEIGHT)]: [int] truncates toward zero. *)
Definition total_pipe_body_pieces : Z :=
  Z.quot (WIN_HEIGHT - 3 * Bird.HEIGHT - 3 * PIECE_HEIGHT) PIECE_HEIGHT.

(** [__init__]; [draw] is what [randint(1, total_pipe_body_pieces)]
    returned.  Both counts are incremented for the end pieces once the
    image is drawn. *)
Definition init (draw : Z) : t :=
  let bottom_pieces0 := draw in
  let top_pieces0 := total_pipe_body_pieces - bottom_pieces0 in
  mk WIN_WIDTH false (top_pieces0 + 1) (bottom_pieces0 + 1).

Definition top_height_px (self : t) : Z := top_pieces self * PIECE_HEIGHT.

Definition bottom_height_px (self : t) : Z := bottom_pieces self * PIECE_HEIGHT.

Definition top_rect (self : t) : Rect :=
  mkRect (x self) 0 WIDTH (top_height_px self).

Definition bottom_rect (self : t) : Rect :=
  mkRect (x self) (WIN_HEIGHT - bottom_height_px self) WIDTH (bottom_height_px self).

(** [collides_with(self, rect)]:
    [rect.collidelist((top_rect, bottom_rect)) > -1]. *)
Definition collides_with (self : t) (rect : Rect) : bool :=
  -1 <? collidelist rect [top_rect self; bottom_rect self].

Definition set_x (self : t) (x' : Z) : t :=
  mk x' (score_counted self) (top_pieces self) (bottom_pieces self).

Definition set_score_counted (self : t) (c : bool) : t :=
  mk (x self) c (top_pieces self) (bottom_pieces self).

(** The opening between the two pipes, in pixels. *)
Definition gap (self : t) : Z :=
  WIN_HEIGHT - top_height_px self - bottom_height_px self.

End PipePair.

(** ** load_images and msec_to_frames *)

Definition load_images : scope :=
  [ ("background", VImage "background.png");
    ("pipe-end", VImage "pipe_end.png");
    ("pipe-body", VImage "pipe_body.png");
    ("bird-wingup", VImage "bird_wing_up.png");
    ("bird-wingdown", VImage "bird_wing_down.png") ].

Definition getitem (d : scope) (key : string) : M value :=
  match lookup key d with
  | Some v => Ok v
  | None => Raise KeyError
  end.

(** [fps * milliseconds / 1000.0].  The one use is
    [msec_to_frames(PipePair.ADD_INTERVAL)], where the quotient is the
    whole number [180.0]. *)
Definition msec_to_frames (milliseconds : Z) : Z := FPS * milliseconds / 1000.

(** ** Events *)

Inductive key : Type :=
| K_ESCAPE | K_PAUSE | K_p | K_UP | K_RETURN | K_SPACE | K_OTHER.

(** What the window system queues. *)
Inductive os_event : Type :=
| QUIT
| KEYUP (k : key)
| MOUSEBUTTONUP
| OTHER.

(** What [pygame.event.get()] hands to the loop: window-system events and
    the program's own [PipePair.ADD_EVENT]. *)
Inductive event : Type :=
| Os (e : os_event)
| ADD_EVENT.

(** The input of one pass through the loop: the window-system events that
    [pygame.event.get()] returns ahead of and behind a posted event, and
    the value [randint] returns if a [PipePair] is built (the queue is
    emptied in every pass and a pass posts at most one [ADD_EVENT], so it
    builds at most one). *)
Record tick_input : Type := mk_input {
  events_before : list os_event;
  events_after : list os_event;
  draw : Z
}.

Definition pygame_event_get (posted : bool) (inp : tick_input) : list event :=
  map Os (events_before inp)
    ++ (if posted then [ADD_EVENT] else [])
    ++ map Os (events_after inp).

Definition is_quit (e : event) : bool :=
  match e with
  | Os QUIT | Os (KEYUP K_ESCAPE) => true
  | _ => false
  end.

Definition is_pause (e : event) : bool :=
  match e with
  | Os (KEYUP K_PAUSE) | Os (KEYUP K_p) => true
  | _ => false
  end.

Definition is_jump (e : event) : bool :=
  match e with
  | Os MOUSEBUTTONUP
  | Os (KEYUP K_UP) | Os (KEYUP K_RETURN) | Os (KEYUP K_SPACE) => true
  | _ => false
  end.

Definition is_add (e : event) : bool :=
  match e with
  | ADD_EVENT => true
  | _ => false
  end.

(** ** The session: the local variables of [main] that the loop updates *)

Record Session : Type := mk_session {
  bird : Bird.t;
  pipes : list PipePair.t;
  frame_clock : Z;
  score : Z;
  done : bool;
  paused : bool
}.

Definition set_bird (s : Session) (b : Bird.t) : Session :=
  mk_session b (pipes s) (frame_clock s) (score s) (done s) (paused s).

Definition set_pipes (s : Session) (ps : list PipePair.t) : Session :=
  mk_session (bird s) ps (frame_clock s) (score s) (done s) (paused s).

Definition set_frame_clock (s : Session) (n : Z) : Session :=
  mk_session (bird s) (pipes s) n (score s) (done s) (paused s).

Definition set_score (s : Session) (n : Z) : Session :=
  mk_session (bird s) (pipes s) (frame_clock s) n (done s) (paused s).

Definition set_done (s : Session) (d : bool) : Session :=
  mk_session (bird s) (pipes s) (frame_clock s) (score s) d (paused s).

Definition set_paused (s : Session) (p : bool) : Session :=
  mk_session (bird s) (pipes s) (frame_clock s) (score s) (done s) p.

(** ** main: what precedes the loop *)

(** [Bird(50, int(WIN_HEIGHT/2 - Bird.HEIGHT/2), 2
         (images['bird-wingup'], images['bird-wingdown']))]:
    no comma separates [2] from the parenthesised pair, so the third
    argument is the call of [2] on the two images, and [Bird] receives
    three arguments. *)
Definition main_bird (images : scope) : M Bird.t :=
  (* 512 / 2 and 32 / 2 are whole, so is the float that [int] receives *)
  let x0 := VNum (Int 50) in
  let y0 := VNum (Int (WIN_HEIGHT / 2 - Bird.HEIGHT / 2)) in
  wingup <- getitem images "bird-wingup" ;;
  wingdown <- getitem images "bird-wingdown" ;;
  third <- call_value (VNum (Int 2)) [wingup; wingdown] ;;
  Bird.init [x0; y0; third].

(** The state in which the loop is entered: an empty deque of pipes,
    [frame_clock = 0], [score = 0], [done = paused = False]. *)
Definition main_setup : M Session :=
  let images := load_images in
  b <- main_bird images ;;
  Ok (mk_session b [] 0 0 false false).

(** ** main: one pass through the loop *)

(** [not (paused or frame_clock % msec_to_frames(PipePair.ADD_INTERVAL))]:
    whether this pass posts [ADD_EVENT]. *)
Definition posts_add_event (s : Session) : bool :=
  negb (paused s
        || negb (frame_clock s mod msec_to_frames PipePair.ADD_INTERVAL =? 0)).

(** The [for e in pygame.event.get()] loop; a quit event leaves it with
    [break], so later events of the same pass are dropped. *)
Fixpoint handle_events (d : Z) (evs : list event) (s : Session) : Session :=
  match evs with
  | [] => s
  | e :: rest =>
      if is_quit e then set_done s true
      else if is_pause e then
        handle_events d rest (set_paused s (negb (paused s)))
      else if is_jump e then
        handle_events d rest
          (set_bird s (Bird.set_steps_to_jump (bird s) Bird.JUMP_STEPS))
      else if is_add e then
        handle_events d rest (set_pipes s (pipes s ++ [PipePair.init d]))
      else handle_events d rest s
  end.

(** [any(p.collides_with(bird.rect) for p in pipes)] *)
Definition pipe_collision (s : Session) : bool :=
  existsb (fun p => PipePair.collides_with p (Bird.rect (bird s))) (pipes s).

(** [if pipe_collision or 0 >= bird.y or bird.y >= WIN_HEIGHT - Bird.HEIGHT:
        done = True] *)
Definition check_collisions (s : Session) : Session :=
  if pipe_collision s
     || num_le (Bird.y (bird s)) (Int 0)
     || num_le (Int (WIN_HEIGHT - Bird.HEIGHT)) (Bird.y (bird s))
  then set_done s true
  else s.

(** [while len(pipes) > 0 and pipes[0].x <= -PipePair.WIDTH: pipes.popleft()] *)
Fixpoint retire_pipes (ps : list PipePair.t) : list PipePair.t :=
  match ps with
  | [] => []
  | p :: rest =>
      if PipePair.x p <=? - PipePair.WIDTH then retire_pipes rest else ps
  end.

(** [for p in pipes: p.x -= FRAME_ANIMATION_WIDTH] *)
Definition move_pipe (p : PipePair.t) : PipePair.t :=
  PipePair.set_x p (PipePair.x p - FRAME_ANIMATION_WIDTH).

Definition move_pipes (ps : list PipePair.t) : list PipePair.t :=
  map move_pipe ps.

(** Whether the scoring loop counts [p]:
    [p.x + PipePair.WIDTH < bird.x and not p.score_counted]. *)
Definition scores (bird_x : Z) (p : PipePair.t) : bool :=
  (PipePair.x p + PipePair.WIDTH <? bird_x) && negb (PipePair.score_counted p).

(** [for p in pipes: if ...: score += 1; p.score_counted = True] *)
Fixpoint update_score (bird_x : Z) (ps : list PipePair.t) (sc : Z)
  : list PipePair.t * Z :=
  match ps with
  | [] => ([], sc)
  | p :: rest =>
      if scores bird_x p then
        let (rest', sc') := update_score bird_x rest (sc + 1) in
        (PipePair.set_score_counted p true :: rest', sc')
      else
        let (rest', sc') := update_score bird_x rest sc in
        (p :: rest', sc')
  end.

(** The part of the pass behind [if paused: continue], drawing left out. *)
Definition run_frame (s : Session) : M Session :=
  let s := check_collisions s in
  let s := set_pipes s (retire_pipes (pipes s)) in
  let s := set_pipes s (move_pipes (pipes s)) in
  b <- Bird.update (bird s) ;;
  let s := set_bird s b in
  let (ps, sc) := update_score (Bird.x (bird s)) (pipes s) (score s) in
  let s := set_score (set_pipes s ps) sc in
  Ok (set_frame_clock s (frame_clock s + 1)).

(** The body of [while not done]. *)
Definition main_tick (inp : tick_input) (s : Session) : M Session :=
  let posted := posts_add_event s in
  let s := handle_events (draw inp) (pygame_event_get posted inp) s in
  if paused s then Ok s else run_frame s.

(** [while not done], over the inputs of the successive passes. *)
Fixpoint main_loop (inputs : list tick_input) (s : Session) : M Session :=
  match inputs with
  | [] => Ok s
  | inp :: rest =>
      if done s then Ok s
      else s' <- main_tick inp s ;; main_loop rest s'
  end.

(** [n] successive calls of [bird.update()]. *)
Fixpoint update_times (n : nat) (b : Bird.t) : M Bird.t :=
  match n with
  | O => Ok b
  | S n' => b' <- Bird.update b ;; update_times n' b'
  end.

(** ** The update that the docstring describes

    [Bird.update]'s docstring and the specification describe an update
    that tests the bird's own [steps_to_jump].  [update_documented] is that
    function, kept apart from [Bird.update] to compare the two. *)

Definition update_documented (self : Bird.t) : Bird.t :=
  if 0 <? Bird.steps_to_jump self then
    let self' :=
      Bird.set_y self
        (num_sub (Bird.y self) (Float (Bird.jump_delta (Bird.steps_to_jump self)))) in
    Bird.set_steps_to_jump self' (Bird.steps_to_jump self - 1)
  else
    Bird.set_y self (num_add (Bird.y self) (Int Bird.FRAME_DROP_HEIGHT)).

(** ** Notions used to state the properties *)

Fixpoint documented_times (n : nat) (b : Bird.t) : Bird.t :=
  match n with
  | O => b
  | S n' => documented_times n' (update_documented b)
  end.

(** The rise of a jump that has [n] steps left. *)
Fixpoint jump_total (n : nat) : R :=
  match n with
  | O => 0%R
  | S n' => (Bird.jump_delta (Z.of_nat n) + jump_total n')%R
  end.

(** The pipe pairs of a deque that have not been counted yet. *)
Definition pending (ps : list PipePair.t) : nat :=
  List.length (filter (fun p => negb (PipePair.score_counted p)) ps).

(** What a pause must leave alone: the deque of pipe pairs, the bird's
    position, the score and the frame counter. *)
Definition game_state (s : Session)
  : list PipePair.t * Z * num * Z * Z :=
  (pipes s, Bird.x (bird s), Bird.y (bird s), score s, frame_clock s).

Definition os_events (inp : tick_input) : list os_event :=
  (events_before inp ++ events_after inp)%list.

Definition toggles_pause (inp : tick_input) : bool :=
  existsb (fun e => is_pause (Os e)) (os_events inp).

(** The deque holds the oldest pipe pair first; as all move alike, the
    oldest is the leftmost. *)
Definition leftmost_first (ps : list PipePair.t) : Prop :=
  StronglySorted Z.le (map PipePair.x ps).

(** Sample states. *)

Definition bird_at (y0 : Z) : Bird.t :=
  Bird.mk 50 (Int y0) 0 "bird_wing_up.png" "bird_wing_down.png".

Definition pipe_at (x0 : Z) (counted : bool) : PipePair.t :=
  PipePair.mk x0 counted 7 5.

Definition session_at (y0 : Z) (ps : list PipePair.t) : Session :=
  mk_session (bird_at y0) ps 0 0 false false.

Definition paused_session : Session :=
  mk_session (bird_at 240) [pipe_at 300 false] 180 0 false true.


(** ** More of the program *)


(** The events of a pass that the [for] loop gets to handle: those ahead of
    the first quit event, where it leaves with [break]. *)
Fixpoint handled (evs : list event) : list event :=
  match evs with
  | [] => []
  | e :: rest => if is_quit e then [] else e :: handled rest
  end.

Definition count_events (f : event -> bool) (evs : list event) : nat :=
  List.length (filter f evs).

(** [n] movement steps of one pipe pair. *)
Fixpoint move_times (n : nat) (p : PipePair.t) : PipePair.t :=
  match n with
  | O => p
  | S n' => move_pipe (move_times n' p)
  end.

(** Every pipe pair that has left the screen has been counted. *)
Definition counted_behind_edge (ps : list PipePair.t) : Prop :=
  Forall (fun p => PipePair.x p <= - PipePair.WIDTH ->
                   PipePair.score_counted p = true) ps.

(** * Properties *)

(** Case analysis on a window-system event, down to the key. *)
Ltac os_event_cases e :=
  destruct e as [ | [ | | | | | | ] | | ];
  cbn [is_quit is_pause is_jump is_add] in *.

(** ** Bird *)

(** C1.  Every call of [Bird.update] stops at its first line: the name
    [steps_to_jump] is bound in no scope, so the call raises [NameError]
    and neither [y] nor [steps_to_jump] is changed. *)
Theorem update_raises_NameError (b : Bird.t) : Bird.update b = Raise NameError.
Proof. reflexivity. Qed.

(** C2.  A full jump never takes place: twenty calls of [update] on any
    bird stop at the first one, with [NameError]. *)
Theorem full_jump_raises_NameError (b : Bird.t) :
  update_times 20 b = Raise NameError.
Proof. reflexivity. Qed.

(** *** The documented update, in exact arithmetic *)

Lemma num_R_sub_float (a : num) (d : R) :
  num_R (num_sub a (Float d)) = (num_R a - d)%R.
Proof. destruct a; reflexivity. Qed.

Lemma num_R_add_int (a : num) (z : Z) :
  num_R (num_add a (Int z)) = (num_R a + IZR z)%R.
Proof. destruct a; simpl; [apply plus_IZR | reflexivity]. Qed.

Lemma documented_times_jump (n : nat) : forall b : Bird.t,
  Bird.steps_to_jump b = Z.of_nat n ->
  num_R (Bird.y (documented_times n b)) = (num_R (Bird.y b) - jump_total n)%R
  /\ Bird.steps_to_jump (documented_times n b) = 0.
Proof.
  induction n as [|n IH]; intros b Hs.
  - simpl. split; [lra | exact Hs].
  - cbn [documented_times jump_total].
    assert (Hpos : (0 <? Bird.steps_to_jump b) = true)
      by (apply Z.ltb_lt; lia).
    destruct (IH (update_documented b)) as [Hy Hz].
    + unfold update_documented. rewrite Hpos. simpl. lia.
    + split; [|exact Hz].
      rewrite Hy. unfold update_documented. rewrite Hpos.
      cbn [Bird.set_steps_to_jump Bird.set_y Bird.y].
      rewrite num_R_sub_float, Hs. lra.
Qed.

Lemma jump_delta_pair (s : Z) :
  (Bird.jump_delta s + Bird.jump_delta (Bird.JUMP_STEPS - s) = 10)%R.
Proof.
  unfold Bird.jump_delta, Bird.JUMP_STEPS, Bird.FRAME_JUMP_HEIGHT.
  replace (20 - (20 - s)) with s by lia.
  rewrite minus_IZR.
  replace ((20 - IZR s) / 20 * PI)%R with (PI - IZR s / 20 * PI)%R by field.
  rewrite Rtrigo_facts.cos_pi_minus. lra.
Qed.

Lemma jump_delta_first : Bird.jump_delta 20 = 0%R.
Proof.
  unfold Bird.jump_delta, Bird.JUMP_STEPS, Bird.FRAME_JUMP_HEIGHT.
  replace (IZR (20 - 20) / 20 * PI)%R with 0%R by (simpl; field).
  rewrite cos_0. lra.
Qed.

Lemma jump_delta_middle : Bird.jump_delta 10 = 5%R.
Proof.
  unfold Bird.jump_delta, Bird.JUMP_STEPS, Bird.FRAME_JUMP_HEIGHT.
  replace (IZR (20 - 10) / 20 * PI)%R with (PI / 2)%R by (simpl; field).
  rewrite cos_PI2. lra.
Qed.

Lemma jump_delta_nonneg (s : Z) : (0 <= Bird.jump_delta s)%R.
Proof.
  unfold Bird.jump_delta, Bird.FRAME_JUMP_HEIGHT.
  pose proof (COS_bound (IZR (Bird.JUMP_STEPS - s) / IZR Bird.JUMP_STEPS * PI)) as [_ Hc].
  nra.
Qed.

Lemma jump_total_full : jump_total 20 = 95%R.
Proof.
  pose proof (jump_delta_pair 1) as H1. pose proof (jump_delta_pair 2) as H2.
  pose proof (jump_delta_pair 3) as H3. pose proof (jump_delta_pair 4) as H4.
  pose proof (jump_delta_pair 5) as H5. pose proof (jump_delta_pair 6) as H6.
  pose proof (jump_delta_pair 7) as H7. pose proof (jump_delta_pair 8) as H8.
  pose proof (jump_delta_pair 9) as H9.
  pose proof jump_delta_first as H20. pose proof jump_delta_middle as H10.
  unfold Bird.JUMP_STEPS in *.
  change (20 - 1) with 19 in H1. change (20 - 2) with 18 in H2.
  change (20 - 3) with 17 in H3. change (20 - 4) with 16 in H4.
  change (20 - 5) with 15 in H5. change (20 - 6) with 14 in H6.
  change (20 - 7) with 13 in H7. change (20 - 8) with 12 in H8.
  change (20 - 9) with 11 in H9.
  cbn [jump_total]. cbn [Z.of_nat Pos.of_succ_nat Pos.succ]. lra.
Qed.

Lemma documented_jump_never_descends (b : Bird.t) :
  0 < Bird.steps_to_jump b ->
  (num_R (Bird.y (update_documented b)) <= num_R (Bird.y b))%R.
Proof.
  intros H. unfold update_documented.
  apply Z.ltb_lt in H. rewrite H.
  cbn [Bird.set_steps_to_jump Bird.set_y Bird.y].
  rewrite num_R_sub_float.
  pose proof (jump_delta_nonneg (Bird.steps_to_jump b)). lra.
Qed.

(** A bird with no steps left, at [y = 240]: the documented update drops
    it to 243, [Bird.update] raises. *)
Lemma documented_drop_at_240 :
  Bird.y (update_documented (bird_at 240)) = Int 243
  /\ Bird.update (bird_at 240) = Raise NameError.
Proof. split; reflexivity. Qed.

(** With the attribute in the condition, a full jump from [y] ends
    (in exact arithmetic) at [y - 95], never having moved down, with no
    steps left: five pixels short of
    [FRAME_JUMP_HEIGHT * JUMP_STEPS = 100]. *)
Lemma documented_full_jump (b : Bird.t) :
  Bird.steps_to_jump b = Bird.JUMP_STEPS ->
  num_R (Bird.y (documented_times 20 b)) = (num_R (Bird.y b) - 95)%R
  /\ Bird.steps_to_jump (documented_times 20 b) = 0.
Proof.
  intros Hs. destruct (documented_times_jump 20 b Hs) as [Hy Hz].
  rewrite jump_total_full in Hy. split; assumption.
Qed.

(** ** PipePair *)

Lemma total_pipe_body_pieces_value : PipePair.total_pipe_body_pieces = 10.
Proof. reflexivity. Qed.

Lemma init_pieces_sum (d : Z) :
  PipePair.top_pieces (PipePair.init d) + PipePair.bottom_pieces (PipePair.init d)
  = PipePair.total_pipe_body_pieces + 2.
Proof.
  unfold PipePair.init.
  cbn [PipePair.top_pieces PipePair.bottom_pieces]. lia.
Qed.

Lemma gap_of_pieces (p : PipePair.t) :
  PipePair.gap p
  = WIN_HEIGHT
    - (PipePair.top_pieces p + PipePair.bottom_pieces p) * PipePair.PIECE_HEIGHT.
Proof.
  unfold PipePair.gap, PipePair.top_height_px, PipePair.bottom_height_px. lia.
Qed.

Lemma init_gap (d : Z) : PipePair.gap (PipePair.init d) = 128.
Proof.
  rewrite gap_of_pieces, init_pieces_sum, total_pipe_body_pieces_value.
  reflexivity.
Qed.

(** C3 as stated fails: a pipe pair built from the draw 4 has heights 224
    and 160 and leaves 128 pixels, not 96. *)
Lemma gap_is_not_three_birds :
  PipePair.top_height_px (PipePair.init 4) = 224
  /\ PipePair.bottom_height_px (PipePair.init 4) = 160
  /\ PipePair.gap (PipePair.init 4) <> 3 * Bird.HEIGHT.
Proof. repeat split. vm_compute. discriminate. Qed.

(** C3, amended.  Whatever [randint] returns, the gap of a constructed
    pipe pair, with the heights taken after the end-cap adjustment, is
    [3 * Bird.HEIGHT + PipePair.PIECE_HEIGHT = 128] pixels. *)
Theorem gap_is_three_birds_and_a_piece (d : Z) :
  PipePair.gap (PipePair.init d) = 3 * Bird.HEIGHT + PipePair.PIECE_HEIGHT
  /\ PipePair.gap (PipePair.init d) = 128.
Proof. rewrite init_gap. split; reflexivity. Qed.

(** C4.  For a draw in [[1, total_pipe_body_pieces]], after the end-cap
    adjustment the two counts sum to [total_pipe_body_pieces + 2], each is
    at least 1, and the gap is at least [3 * Bird.HEIGHT]. *)
Theorem init_pieces_and_gap (d : Z) :
  1 <= d <= PipePair.total_pipe_body_pieces ->
  let p := PipePair.init d in
  PipePair.top_pieces p + PipePair.bottom_pieces p - 2
    = PipePair.total_pipe_body_pieces
  /\ 1 <= PipePair.top_pieces p
  /\ 1 <= PipePair.bottom_pieces p
  /\ 3 * Bird.HEIGHT <= PipePair.gap p.
Proof.
  intros Hd p. subst p.
  pose proof (init_pieces_sum d) as Hsum.
  pose proof (init_gap d) as Hgap.
  rewrite total_pipe_body_pieces_value in *.
  unfold PipePair.init in *.
  cbn [PipePair.top_pieces PipePair.bottom_pieces] in *.
  rewrite total_pipe_body_pieces_value in *.
  repeat split; try lia.
  rewrite Hgap. vm_compute. discriminate.
Qed.

Lemma init_pieces_and_gap_witness :
  1 <= 4 <= PipePair.total_pipe_body_pieces
  /\ PipePair.top_pieces (PipePair.init 4) = 7
  /\ PipePair.bottom_pieces (PipePair.init 4) = 5
  /\ 3 * Bird.HEIGHT <= PipePair.gap (PipePair.init 4).
Proof.
  assert (H : 1 <= 4 <= PipePair.total_pipe_body_pieces)
    by (vm_compute; split; discriminate).
  split; [exact H|].
  split; [reflexivity|]. split; [reflexivity|].
  exact (proj2 (proj2 (proj2 (init_pieces_and_gap 4 H)))).
Defined.

(** ** The termination check *)

Lemma Rleb_spec (a b : R) : Rleb a b = true <-> (a <= b)%R.
Proof.
  unfold Rleb. destruct (Rle_dec a b); split; intro H;
    [assumption | reflexivity | discriminate | contradiction].
Qed.

Lemma num_le_spec (a b : num) :
  num_le a b = true <-> (num_R a <= num_R b)%R.
Proof.
  destruct a as [x|x], b as [y|y]; simpl; try apply Rleb_spec.
  rewrite Z.leb_le. split; [apply IZR_le | apply le_IZR].
Qed.

Lemma collides_with_spec (p : PipePair.t) (r : Rect) :
  PipePair.collides_with p r = true
  <-> colliderect r (PipePair.top_rect p) = true
      \/ colliderect r (PipePair.bottom_rect p) = true.
Proof.
  unfold PipePair.collides_with, collidelist. cbn [collidelist_from].
  destruct (colliderect r (PipePair.top_rect p));
    destruct (colliderect r (PipePair.bottom_rect p)); simpl;
    intuition discriminate.
Qed.

Lemma pipe_collision_spec (s : Session) :
  pipe_collision s = true
  <-> exists p, In p (pipes s)
                /\ PipePair.collides_with p (Bird.rect (bird s)) = true.
Proof. unfold pipe_collision. apply existsb_exists. Qed.

Lemma check_collisions_done (s : Session) :
  done (check_collisions s)
  = done s || (pipe_collision s
               || num_le (Bird.y (bird s)) (Int 0)
               || num_le (Int (WIN_HEIGHT - Bird.HEIGHT)) (Bird.y (bird s))).
Proof.
  unfold check_collisions.
  destruct (pipe_collision s || num_le (Bird.y (bird s)) (Int 0)
            || num_le (Int (WIN_HEIGHT - Bird.HEIGHT)) (Bird.y (bird s)));
    simpl; [rewrite orb_true_r | rewrite orb_false_r]; reflexivity.
Qed.

(** C5.  In a pass that reaches the check with [done] still false, the
    check sets [done] exactly when the bird's rectangle collides with some
    pipe pair of the deque, or [bird.y <= 0], or
    [bird.y >= WIN_HEIGHT - Bird.HEIGHT].  So without a pipe collision a
    bird at [y = 0] or [y = WIN_HEIGHT - Bird.HEIGHT] ends the session
    and a bird strictly in between does not. *)
Theorem termination_check (s : Session) :
  done s = false ->
  let y := num_R (Bird.y (bird s)) in
  let hits :=
    exists p, In p (pipes s)
              /\ PipePair.collides_with p (Bird.rect (bird s)) = true in
  (done (check_collisions s) = true
     <-> hits \/ (y <= 0)%R \/ (IZR (WIN_HEIGHT - Bird.HEIGHT) <= y)%R)
  /\ (~ hits ->
      (y = 0%R \/ y = IZR (WIN_HEIGHT - Bird.HEIGHT) ->
       done (check_collisions s) = true)
      /\ ((0 < y < IZR (WIN_HEIGHT - Bird.HEIGHT))%R ->
          done (check_collisions s) = false)).
Proof.
  intros Hd y hits.
  assert (Hiff : done (check_collisions s) = true
     <-> hits \/ (y <= 0)%R \/ (IZR (WIN_HEIGHT - Bird.HEIGHT) <= y)%R).
  { rewrite check_collisions_done, Hd. cbn [orb].
    rewrite !orb_true_iff, pipe_collision_spec, !num_le_spec.
    subst y hits. cbn [num_R]. tauto. }
  split; [exact Hiff|].
  intros Hno. split.
  - intros [H0 | Hmax]; apply Hiff; right; [left | right]; lra.
  - intros [Hlo Hhi]. destruct (done (check_collisions s)) eqn:E; [|reflexivity].
    exfalso. destruct (proj1 Hiff eq_refl) as [H | [H | H]];
      [exact (Hno H) | lra | lra].
Qed.

Lemma termination_check_witness :
  done (check_collisions (session_at 0 [])) = true
  /\ done (check_collisions (session_at 240 [])) = false.
Proof.
  assert (Hno : ~ exists p, In p (pipes (session_at 0 []))
      /\ PipePair.collides_with p (Bird.rect (bird (session_at 0 []))) = true)
    by (intros [p [[] _]]).
  split.
  - exact (proj1 (proj2 (termination_check (session_at 0 []) eq_refl) Hno)
             (or_introl eq_refl)).
  - reflexivity.
Defined.

(** ** Scoring *)

Lemma update_score_spec (bird_x : Z) (ps : list PipePair.t) : forall sc : Z,
  update_score bird_x ps sc
  = (map (fun p => if scores bird_x p
                   then PipePair.set_score_counted p true else p) ps,
     sc + Z.of_nat (List.length (filter (scores bird_x) ps))).
Proof.
  induction ps as [|p ps IH]; intros sc; cbn [update_score map filter].
  - simpl. f_equal. lia.
  - destruct (scores bird_x p); rewrite IH; cbn [List.length]; f_equal; lia.
Qed.

Lemma counted_never_scores (bird_x : Z) (p : PipePair.t) :
  PipePair.score_counted p = true -> scores bird_x p = false.
Proof. intros H. unfold scores. rewrite H. apply andb_false_r. Qed.

Lemma update_score_pending (bird_x : Z) (ps : list PipePair.t) (sc : Z) :
  snd (update_score bird_x ps sc)
    + Z.of_nat (pending (fst (update_score bird_x ps sc)))
  = sc + Z.of_nat (pending ps).
Proof.
  rewrite update_score_spec. cbn [fst snd]. unfold pending.
  induction ps as [|p ps IH]; [simpl; lia|].
  cbn [map filter].
  destruct (scores bird_x p) eqn:Es.
  - assert (Hc : PipePair.score_counted p = false).
    { unfold scores in Es. apply andb_true_iff in Es.
      destruct Es as [_ Es]. now apply negb_true_iff in Es. }
    rewrite Hc. cbn [PipePair.set_score_counted PipePair.score_counted negb List.length].
    lia.
  - destruct (negb (PipePair.score_counted p)); cbn [List.length]; lia.
Qed.

Lemma pending_move (ps : list PipePair.t) : pending (move_pipes ps) = pending ps.
Proof.
  unfold pending, move_pipes.
  induction ps as [|p ps IH]; [reflexivity|].
  cbn [map filter]. cbn [move_pipe PipePair.set_x PipePair.score_counted].
  destruct (negb (PipePair.score_counted p)); cbn [List.length]; lia.
Qed.

Lemma pending_retire (ps : list PipePair.t) :
  (pending (retire_pipes ps) <= pending ps)%nat.
Proof.
  induction ps as [|p ps IH]; [apply Nat.le_refl|].
  cbn [retire_pipes].
  destruct (PipePair.x p <=? - PipePair.WIDTH); [|apply Nat.le_refl].
  unfold pending in *. cbn [filter].
  destruct (negb (PipePair.score_counted p)); cbn [List.length]; lia.
Qed.


Lemma run_frame_raises (s : Session) : run_frame s = Raise NameError.
Proof. reflexivity. Qed.




(** ** Pausing *)

Lemma paused_posts_nothing (s : Session) :
  paused s = true -> posts_add_event s = false.
Proof. intros H. unfold posts_add_event. rewrite H. reflexivity. Qed.

Lemma pygame_event_get_unposted (inp : tick_input) :
  pygame_event_get false inp = map Os (os_events inp).
Proof. unfold pygame_event_get, os_events. rewrite map_app. reflexivity. Qed.

Lemma handle_os_events_game_state (d : Z) (evs : list os_event) :
  forall s : Session,
  game_state (handle_events d (map Os evs) s) = game_state s.
Proof.
  induction evs as [|e evs IH]; intros s; [reflexivity|].
  cbn [map handle_events].
  os_event_cases e; try reflexivity; rewrite IH; reflexivity.
Qed.

Lemma handle_os_events_paused (d : Z) (evs : list os_event) :
  forall s : Session,
  existsb (fun e => is_pause (Os e)) evs = false ->
  paused (handle_events d (map Os evs) s) = paused s.
Proof.
  induction evs as [|e evs IH]; intros s Hno; [reflexivity|].
  cbn [existsb] in Hno. apply orb_false_iff in Hno. destruct Hno as [He Hno].
  cbn [map handle_events].
  os_event_cases e; try reflexivity; try discriminate;
    rewrite (IH _ Hno); reflexivity.
Qed.

(** A pass that starts paused and is still paused once its events are
    handled ends at [continue]. *)
Lemma paused_tick (inp : tick_input) (s : Session) :
  paused s = true ->
  let s1 := handle_events (draw inp) (map Os (os_events inp)) s in
  paused s1 = true ->
  main_tick inp s = Ok s1 /\ game_state s1 = game_state s.
Proof.
  intros Hp s1 Hp1. unfold main_tick.
  rewrite (paused_posts_nothing s Hp), pygame_event_get_unposted.
  fold s1. rewrite Hp1. split; [reflexivity|].
  apply handle_os_events_game_state.
Qed.

(** The pass in which the pause key is handled is another matter: an
    [ADD_EVENT] posted at its start is still handled, behind the key. *)
Lemma pausing_tick_can_spawn :
  main_tick (mk_input [KEYUP K_p] [] 4) (session_at 240 [])
  = Ok (mk_session (bird_at 240) [PipePair.init 4] 0 0 false true).
Proof. reflexivity. Qed.

(** C7.  Started with [paused] true, any number of passes whose events
    hold no pause key run to the end without raising and leave the pipe
    pairs (their positions and their number), the bird's position, the
    score and [frame_clock] as they were; the session is still paused. *)
Theorem paused_ticks_change_nothing (inputs : list tick_input) :
  forall s : Session,
  paused s = true ->
  Forall (fun inp => toggles_pause inp = false) inputs ->
  exists s' : Session,
    main_loop inputs s = Ok s'
    /\ game_state s' = game_state s
    /\ paused s' = true.
Proof.
  induction inputs as [|inp rest IH]; intros s Hp Hno.
  - exists s. now repeat split.
  - inversion Hno as [|? ? Hinp Hrest]; subst.
    cbn [main_loop]. destruct (done s).
    + exists s. now repeat split.
    + assert (Hp1 : paused (handle_events (draw inp) (map Os (os_events inp)) s)
                    = true).
      { rewrite handle_os_events_paused; assumption. }
      destruct (paused_tick inp s Hp Hp1) as [Htick Hsame].
      rewrite Htick. cbn [bind].
      destruct (IH _ Hp1 Hrest) as [s' [Hrun [Hgs Hps]]].
      exists s'. repeat split; [exact Hrun | congruence | exact Hps].
Qed.

Lemma paused_ticks_change_nothing_witness :
  exists s' : Session,
    main_loop [mk_input [OTHER] [KEYUP K_SPACE] 4; mk_input [] [] 4]
              paused_session = Ok s'
    /\ game_state s' = game_state paused_session
    /\ paused s' = true.
Proof.
  apply paused_ticks_change_nothing.
  - reflexivity.
  - repeat constructor.
Defined.

(** ** Retiring and moving pipe pairs *)

Lemma retire_pipes_split (ps : list PipePair.t) :
  exists gone : list PipePair.t,
    ps = (gone ++ retire_pipes ps)%list
    /\ Forall (fun p => PipePair.x p <= - PipePair.WIDTH) gone.
Proof.
  induction ps as [|p ps [gone [Heq Hgone]]].
  - exists []. split; [reflexivity | constructor].
  - cbn [retire_pipes].
    destruct (PipePair.x p <=? - PipePair.WIDTH) eqn:E.
    + exists (p :: gone). split.
      * cbn [app]. f_equal. exact Heq.
      * constructor; [apply Z.leb_le; exact E | exact Hgone].
    + exists []. split; [reflexivity | constructor].
Qed.

Lemma retire_pipes_front (ps : list PipePair.t) :
  forall p rest, retire_pipes ps = p :: rest -> - PipePair.WIDTH < PipePair.x p.
Proof.
  induction ps as [|a ps IH]; intros p rest H; [discriminate|].
  cbn [retire_pipes] in H.
  destruct (PipePair.x a <=? - PipePair.WIDTH) eqn:E.
  - exact (IH p rest H).
  - injection H as -> _. apply Z.leb_gt. exact E.
Qed.

Lemma leftmost_first_tail (p : PipePair.t) (ps : list PipePair.t) :
  leftmost_first (p :: ps) -> leftmost_first ps.
Proof. intros H. inversion H; assumption. Qed.

Lemma leftmost_first_bound (p : PipePair.t) (ps : list PipePair.t) :
  leftmost_first (p :: ps) ->
  Forall (fun q => PipePair.x p <= PipePair.x q) (p :: ps).
Proof.
  intros H. inversion H as [|? ? _ Hall]; subst.
  constructor; [lia|]. rewrite Forall_map in Hall. exact Hall.
Qed.

Lemma retire_pipes_ordered (ps : list PipePair.t) :
  leftmost_first ps ->
  leftmost_first (retire_pipes ps)
  /\ Forall (fun q => - PipePair.WIDTH < PipePair.x q) (retire_pipes ps).
Proof.
  induction ps as [|p ps IH]; intros Hord.
  - split; [exact Hord | constructor].
  - cbn [retire_pipes].
    destruct (PipePair.x p <=? - PipePair.WIDTH) eqn:E.
    + apply IH. exact (leftmost_first_tail p ps Hord).
    + split; [exact Hord|].
      apply Z.leb_gt in E.
      eapply Forall_impl; [|exact (leftmost_first_bound p ps Hord)].
      cbn beta. intros q Hq. lia.
Qed.

Lemma move_pipe_x (p : PipePair.t) :
  PipePair.x (move_pipe p) = PipePair.x p - FRAME_ANIMATION_WIDTH.
Proof. reflexivity. Qed.

Lemma move_pipes_each (ps : list PipePair.t) :
  Forall2 (fun p q =>
             PipePair.x q = PipePair.x p - FRAME_ANIMATION_WIDTH
             /\ PipePair.score_counted q = PipePair.score_counted p
             /\ PipePair.top_pieces q = PipePair.top_pieces p
             /\ PipePair.bottom_pieces q = PipePair.bottom_pieces p)
          ps (move_pipes ps).
Proof.
  induction ps as [|p ps IH]; [constructor|].
  cbn [move_pipes map]. constructor; [now repeat split | exact IH].
Qed.

Lemma move_pipes_ordered (ps : list PipePair.t) :
  leftmost_first ps -> leftmost_first (move_pipes ps).
Proof.
  unfold leftmost_first, move_pipes.
  induction ps as [|p ps IH]; intros H; [constructor|].
  inversion H as [|? ? Hs Hall]; subst.
  cbn [map]. constructor; [exact (IH Hs)|].
  rewrite Forall_map in *. rewrite Forall_map.
  eapply Forall_impl; [|exact Hall].
  cbn beta. intros q Hq. rewrite !move_pipe_x. lia.
Qed.

Lemma append_ordered (ps : list PipePair.t) (q : PipePair.t) :
  leftmost_first ps ->
  Forall (fun p => PipePair.x p <= PipePair.x q) ps ->
  leftmost_first (ps ++ [q])%list.
Proof.
  unfold leftmost_first.
  induction ps as [|p ps IH]; intros Hord Hle.
  - cbn. repeat constructor.
  - inversion Hord as [|? ? Hs Hall]; subst.
    inversion Hle as [|? ? Hp Hrest]; subst.
    cbn [app map]. constructor; [exact (IH Hs Hrest)|].
    rewrite map_app, Forall_app. split; [exact Hall|].
    cbn [map]. repeat constructor. exact Hp.
Qed.

(** The order is kept by everything a pass does to the deque: a new pipe
    pair enters at [WIN_WIDTH], right of all the others. *)
Lemma deque_stays_ordered (spawn : option Z) (ps : list PipePair.t) :
  leftmost_first ps ->
  Forall (fun p => PipePair.x p <= WIN_WIDTH) ps ->
  let ps1 :=
    match spawn with
    | Some d => (ps ++ [PipePair.init d])%list
    | None => ps
    end in
  leftmost_first (move_pipes (retire_pipes ps1))
  /\ Forall (fun p => PipePair.x p <= WIN_WIDTH) (move_pipes (retire_pipes ps1)).
Proof.
  intros Hord Hle ps1.
  assert (H1 : leftmost_first ps1
               /\ Forall (fun p => PipePair.x p <= WIN_WIDTH) ps1).
  { subst ps1. destruct spawn as [d|]; [|now split]. split.
    - apply append_ordered; assumption.
    - apply Forall_app. split; [exact Hle|]. repeat constructor.
      cbn. lia. }
  destruct H1 as [Ho1 Hl1]. split.
  - apply move_pipes_ordered. apply retire_pipes_ordered. exact Ho1.
  - destruct (retire_pipes_split ps1) as [gone [Heq _]].
    rewrite Heq in Hl1. apply Forall_app in Hl1. destruct Hl1 as [_ Hk].
    unfold move_pipes. rewrite Forall_map.
    eapply Forall_impl; [|exact Hk].
    cbn beta. intros q Hq. rewrite move_pipe_x. unfold FRAME_ANIMATION_WIDTH. lia.
Qed.

(** C8 as stated fails: a pipe pair at [x = -77] is not retired, then it
    moves to [x = -80 = -WIDTH] and is still in the deque when the
    movement step is over. *)
Lemma moved_pipe_rests_at_left_edge :
  move_pipes (retire_pipes [pipe_at (-77) true]) = [pipe_at (-80) true]
  /\ exists p,
       In p (move_pipes (retire_pipes [pipe_at (-77) true]))
       /\ PipePair.x p <= - PipePair.WIDTH.
Proof.
  split; [reflexivity|].
  exists (pipe_at (-80) true). split; [left; reflexivity|].
  vm_compute. discriminate.
Qed.

(** C8, amended.  The pass first retires, from the front, the pipe pairs
    with [x <= -WIDTH], up to the first one with [x > -WIDTH]; then each
    pipe pair that is left moves by exactly [FRAME_ANIMATION_WIDTH = 3] to
    the left.  So after the movement step the front pipe pair has
    [x > -WIDTH - 3], and in a deque ordered leftmost first every pipe
    pair has. *)
Theorem pipes_retired_then_moved (ps : list PipePair.t) :
  let kept := retire_pipes ps in
  (exists gone : list PipePair.t,
      ps = (gone ++ kept)%list
      /\ Forall (fun p => PipePair.x p <= - PipePair.WIDTH) gone)
  /\ Forall2 (fun p q =>
                PipePair.x q = PipePair.x p - FRAME_ANIMATION_WIDTH
                /\ PipePair.score_counted q = PipePair.score_counted p
                /\ PipePair.top_pieces q = PipePair.top_pieces p
                /\ PipePair.bottom_pieces q = PipePair.bottom_pieces p)
             kept (move_pipes kept)
  /\ (forall q rest,
        move_pipes kept = q :: rest ->
        - PipePair.WIDTH - FRAME_ANIMATION_WIDTH < PipePair.x q)
  /\ (leftmost_first ps ->
      Forall (fun q => - PipePair.WIDTH - FRAME_ANIMATION_WIDTH < PipePair.x q)
             (move_pipes kept)).
Proof.
  intros kept. subst kept.
  split; [apply retire_pipes_split|].
  split; [apply move_pipes_each|].
  split.
  - intros q rest H.
    destruct (retire_pipes ps) as [|p kept] eqn:E; [discriminate|].
    cbn [move_pipes map] in H. injection H as <- _.
    rewrite move_pipe_x. pose proof (retire_pipes_front ps p kept E). lia.
  - intros Hord. destruct (retire_pipes_ordered ps Hord) as [_ Hall].
    unfold move_pipes. rewrite Forall_map.
    eapply Forall_impl; [|exact Hall].
    cbn beta. intros q Hq. rewrite move_pipe_x. lia.
Qed.

Lemma pipes_retired_then_moved_witness :
  leftmost_first [pipe_at (-80) true; pipe_at (-77) true; pipe_at 100 false]
  /\ Forall (fun q => - PipePair.WIDTH - FRAME_ANIMATION_WIDTH < PipePair.x q)
       (move_pipes (retire_pipes
          [pipe_at (-80) true; pipe_at (-77) true; pipe_at 100 false])).
Proof.
  assert (H : leftmost_first
                [pipe_at (-80) true; pipe_at (-77) true; pipe_at 100 false]).
  { unfold leftmost_first. cbn [map pipe_at PipePair.x].
    repeat constructor; cbn; lia. }
  split; [exact H|].
  exact (proj2 (proj2 (proj2 (pipes_retired_then_moved
    [pipe_at (-80) true; pipe_at (-77) true; pipe_at 100 false]))) H).
Defined.

(** ** The start of a session *)

Lemma bird_start_y : WIN_HEIGHT / 2 - Bird.HEIGHT / 2 = 240.
Proof. reflexivity. Qed.

(** With four positional arguments the constructor builds the bird that
    the call site is after. *)
Lemma bird_init_four_arguments :
  Bird.init [VNum (Int 50); VNum (Int 240); VNum (Int 2);
             VTuple (VImage "bird_wing_up.png") (VImage "bird_wing_down.png")]
  = Ok (Bird.mk 50 (Int 240) 2 "bird_wing_up.png" "bird_wing_down.png").
Proof. reflexivity. Qed.

(** C9.  No bird is constructed when a session starts: the third argument
    of the call is [2 (...)], the call of an int, which raises [TypeError]
    before [Bird.__init__] is entered, and [main] ends there. *)
Theorem main_setup_raises_TypeError :
  call_value (VNum (Int 2))
    [VImage "bird_wing_up.png"; VImage "bird_wing_down.png"] = Raise TypeError
  /\ main_bird load_images = Raise TypeError
  /\ main_setup = Raise TypeError.
Proof. repeat split. Qed.

(** ** Jumping while paused *)

(** A pass that starts paused and is no longer paused once its events are
    handled goes on to [bird.update()]. *)
Lemma resumed_tick_raises (inp : tick_input) (s : Session) :
  paused s = true ->
  paused (handle_events (draw inp) (map Os (os_events inp)) s) = false ->
  main_tick inp s = Raise NameError.
Proof.
  intros Hp Hr. unfold main_tick.
  rewrite (paused_posts_nothing s Hp), pygame_event_get_unposted, Hr.
  apply run_frame_raises.
Qed.

Lemma handle_events_no_quit (d : Z) (pre : list os_event) :
  forall (rest : list event) (s : Session),
  existsb (fun e => is_quit (Os e)) pre = false ->
  handle_events d (map Os pre ++ rest)%list s
  = handle_events d rest (handle_events d (map Os pre) s).
Proof.
  induction pre as [|e pre IH]; intros rest s Hno; [reflexivity|].
  cbn [existsb] in Hno. apply orb_false_iff in Hno. destruct Hno as [He Hno].
  cbn [map app handle_events]. rewrite He.
  destruct (is_pause (Os e)); [apply IH; exact Hno|].
  destruct (is_jump (Os e)); [apply IH; exact Hno|].
  destruct (is_add (Os e)); apply IH; exact Hno.
Qed.

Lemma handle_os_events_keep_jump (d : Z) (evs : list os_event) :
  forall s : Session,
  Bird.steps_to_jump (bird s) = Bird.JUMP_STEPS ->
  Bird.steps_to_jump (bird (handle_events d (map Os evs) s)) = Bird.JUMP_STEPS.
Proof.
  induction evs as [|e evs IH]; intros s Hs; [exact Hs|].
  cbn [map handle_events].
  os_event_cases e; try exact Hs; apply IH; try exact Hs; reflexivity.
Qed.

(** C10.  In a pass that starts paused and holds no pause key, a jump
    event that no quit event precedes is handled: the pass ends at
    [continue] with [steps_to_jump = JUMP_STEPS], the session still paused
    and the pipe pairs, the bird's position, the score and [frame_clock]
    untouched.  The pass that resumes the session then calls
    [bird.update()], which raises [NameError] where the jump should
    start. *)
Theorem jump_while_paused (inp : tick_input) (s : Session)
    (pre post : list os_event) (j : os_event) :
  paused s = true ->
  os_events inp = (pre ++ j :: post)%list ->
  is_jump (Os j) = true ->
  existsb (fun e => is_quit (Os e)) pre = false ->
  toggles_pause inp = false ->
  exists s1 : Session,
    main_tick inp s = Ok s1
    /\ Bird.steps_to_jump (bird s1) = Bird.JUMP_STEPS
    /\ paused s1 = true
    /\ game_state s1 = game_state s
    /\ forall resume : tick_input,
         paused (handle_events (draw resume) (map Os (os_events resume)) s1)
           = false ->
         main_tick resume s1 = Raise NameError.
Proof.
  intros Hp Hev Hj Hq Ht.
  set (s1 := handle_events (draw inp) (map Os (os_events inp)) s).
  assert (Hp1 : paused s1 = true).
  { subst s1. rewrite handle_os_events_paused; assumption. }
  destruct (paused_tick inp s Hp Hp1) as [Htick Hsame].
  exists s1. split; [exact Htick|]. split; [|split; [exact Hp1|split]].
  - subst s1. rewrite Hev, map_app, (handle_events_no_quit _ _ _ _ Hq).
    cbn [map handle_events].
    assert (Hnq : is_quit (Os j) = false /\ is_pause (Os j) = false)
      by (clear - Hj; os_event_cases j; (discriminate || now split)).
    destruct Hnq as [Hnq Hnp]. rewrite Hnq, Hnp, Hj.
    apply handle_os_events_keep_jump. reflexivity.
  - exact Hsame.
  - intros resume Hr. exact (resumed_tick_raises resume s1 Hp1 Hr).
Qed.

Lemma jump_while_paused_witness :
  exists s1 : Session,
    main_tick (mk_input [OTHER] [MOUSEBUTTONUP; OTHER] 4) paused_session = Ok s1
    /\ Bird.steps_to_jump (bird s1) = 20
    /\ main_tick (mk_input [] [KEYUP K_p] 4) s1 = Raise NameError.
Proof.
  destruct (jump_while_paused (mk_input [OTHER] [MOUSEBUTTONUP; OTHER] 4)
              paused_session [OTHER] [OTHER] MOUSEBUTTONUP
              eq_refl eq_refl eq_refl eq_refl eq_refl)
    as [s1 [Htick [Hsteps [Hp1 [_ Hresume]]]]].
  exists s1. split; [exact Htick|]. split; [exact Hsteps|].
  apply Hresume.
  cbn [os_events events_before events_after app map handle_events
       is_quit is_pause paused set_paused].
  rewrite Hp1. reflexivity.
Defined.

(** * Further properties of the program *)

(** ** Spawning schedule *)

(** X1.  A pass posts [ADD_EVENT] exactly when the session is not paused
    at its start and [frame_clock] is a multiple of 180, the number of
    frames of [ADD_INTERVAL = 3000] ms at 60 frames per second. *)
Theorem posts_add_event_iff (s : Session) :
  posts_add_event s = true
  <-> paused s = false /\ (180 | frame_clock s).
Proof.
  unfold posts_add_event.
  change (msec_to_frames PipePair.ADD_INTERVAL) with 180.
  rewrite negb_true_iff, orb_false_iff, negb_false_iff, Z.eqb_eq.
  rewrite Z.mod_divide by lia. reflexivity.
Qed.

(** ** The bird's image *)



(** ** A pipe pair from construction to retirement *)

Lemma move_times_x (n : nat) (p : PipePair.t) :
  PipePair.x (move_times n p)
  = PipePair.x p - FRAME_ANIMATION_WIDTH * Z.of_nat n.
Proof.
  unfold FRAME_ANIMATION_WIDTH. induction n as [|n IH].
  - cbn [move_times]. lia.
  - cbn [move_times]. rewrite move_pipe_x, IH.
    unfold FRAME_ANIMATION_WIDTH. lia.
Qed.

(** X3.  A pipe pair built by [PipePair.__init__] and moved [n] times is at
    [x = WIN_WIDTH - 3 * n]; the scoring loop counts it against the bird
    at [x = 50] from its 200th movement step on, and the retiring loop
    removes it from its 216th on: it is counted before it can be
    retired. *)
Theorem pipe_lifetime (d : Z) (n : nat) :
  let p := move_times n (PipePair.init d) in
  PipePair.x p = WIN_WIDTH - 3 * Z.of_nat n
  /\ (scores 50 p = true <-> (200 <= n)%nat)
  /\ (retire_pipes [p] = [] <-> (216 <= n)%nat).
Proof.
  intros p.
  assert (Hx : PipePair.x p = 568 - 3 * Z.of_nat n).
  { subst p. rewrite move_times_x. reflexivity. }
  assert (Hc : PipePair.score_counted p = false).
  { subst p. clear Hx.
    induction n as [|n IH]; [reflexivity | cbn [move_times]; exact IH]. }
  split; [exact Hx|]. split.
  - unfold scores. rewrite Hc, andb_true_r, Z.ltb_lt, Hx.
    unfold PipePair.WIDTH. lia.
  - cbn [retire_pipes].
    destruct (PipePair.x p <=? - PipePair.WIDTH) eqn:E.
    + apply Z.leb_le in E. rewrite Hx in E. unfold PipePair.WIDTH in E.
      split; [lia | reflexivity].
    + apply Z.leb_gt in E. rewrite Hx in E. unfold PipePair.WIDTH in E.
      split; [discriminate | lia].
Qed.

Lemma pipe_lifetime_witness :
  scores 50 (move_times 200 (PipePair.init 4)) = true.
Proof.
  exact (proj2 (proj1 (proj2 (pipe_lifetime 4 200))) (Nat.le_refl 200)).
Defined.

(** ** Event handling *)

Ltac event_cases e :=
  destruct e as [e|]; [os_event_cases e|];
  cbn [is_quit is_pause is_jump is_add] in *.

Lemma handled_no_quit (evs : list event) :
  existsb is_quit (handled evs) = false.
Proof.
  induction evs as [|e evs IH]; [reflexivity|].
  cbn [handled]. destruct (is_quit e) eqn:E; [reflexivity|].
  cbn [existsb]. rewrite E, IH. reflexivity.
Qed.

Lemma handled_quit_free (evs : list event) :
  existsb is_quit evs = false -> handled evs = evs.
Proof.
  induction evs as [|e evs IH]; intros H; [reflexivity|].
  cbn [existsb] in H. apply orb_false_iff in H. destruct H as [He H].
  cbn [handled]. rewrite He, (IH H). reflexivity.
Qed.

Lemma handled_app (pre rest : list event) :
  handled (pre ++ rest)
  = if existsb is_quit pre then handled pre else (pre ++ handled rest)%list.
Proof.
  induction pre as [|e pre IH]; [reflexivity|].
  cbn [app handled existsb]. destruct (is_quit e); cbn [orb]; [reflexivity|].
  rewrite IH. destruct (existsb is_quit pre); reflexivity.
Qed.

Lemma handle_events_break (d : Z) (evs : list event) : forall s : Session,
  handle_events d evs s
  = if existsb is_quit evs
    then set_done (handle_events d (handled evs) s) true
    else handle_events d (handled evs) s.
Proof.
  induction evs as [|e evs IH]; intros s; [reflexivity|].
  cbn [handle_events handled existsb].
  destruct (is_quit e) eqn:Eq; cbn [orb]; [reflexivity|].
  cbn [handle_events]. rewrite Eq.
  destruct (is_pause e); [apply IH|].
  destruct (is_jump e); [apply IH|].
  destruct (is_add e); apply IH.
Qed.

Lemma xorb_negb_odd (p : bool) (n : nat) :
  xorb (negb p) (Nat.odd n) = xorb p (Nat.odd (S n)).
Proof.
  rewrite Nat.odd_succ, <- Nat.negb_odd.
  destruct p, (Nat.odd n); reflexivity.
Qed.

Lemma handle_events_quit_free (d : Z) (evs : list event) : forall s : Session,
  existsb is_quit evs = false ->
  handle_events d evs s
  = mk_session
      (if existsb is_jump evs
       then Bird.set_steps_to_jump (bird s) Bird.JUMP_STEPS else bird s)
      (pipes s ++ repeat (PipePair.init d) (count_events is_add evs))
      (frame_clock s) (score s) (done s)
      (xorb (paused s) (Nat.odd (count_events is_pause evs))).
Proof.
  unfold count_events.
  induction evs as [|e evs IH]; intros s Hq.
  - cbn. rewrite app_nil_r, xorb_false_r. destruct s; reflexivity.
  - cbn [existsb] in Hq. apply orb_false_iff in Hq. destruct Hq as [He Hq].
    cbn [handle_events]. rewrite He.
    event_cases e; try discriminate; rewrite (IH _ Hq);
      cbn [existsb filter is_quit is_pause is_jump is_add orb List.length
           bird pipes frame_clock score done paused
           set_paused set_bird set_pipes];
      try reflexivity.
    + rewrite xorb_negb_odd. reflexivity.
    + rewrite xorb_negb_odd. reflexivity.
    + destruct (existsb is_jump evs); reflexivity.
    + destruct (existsb is_jump evs); reflexivity.
    + destruct (existsb is_jump evs); reflexivity.
    + destruct (existsb is_jump evs); reflexivity.
    + rewrite <- app_assoc. reflexivity.
Qed.

Lemma handle_events_pipes (d : Z) (evs : list event) (s : Session) :
  pipes (handle_events d evs s)
  = (pipes s
     ++ repeat (PipePair.init d) (count_events is_add (handled evs)))%list.
Proof.
  rewrite handle_events_break.
  pose proof (handle_events_quit_free d (handled evs) s (handled_no_quit evs)) as H.
  destruct (existsb is_quit evs); rewrite H; reflexivity.
Qed.

Lemma handle_events_paused (d : Z) (evs : list event) (s : Session) :
  paused (handle_events d evs s)
  = xorb (paused s) (Nat.odd (count_events is_pause (handled evs))).
Proof.
  rewrite handle_events_break.
  pose proof (handle_events_quit_free d (handled evs) s (handled_no_quit evs)) as H.
  destruct (existsb is_quit evs); rewrite H; reflexivity.
Qed.

(** X4.  What event handling does to a session, for every list of events:
    with the events ahead of the first quit event, the bird's
    [steps_to_jump] becomes [JUMP_STEPS] if one of them is a jump event
    and is left alone otherwise, one pipe pair is appended for each
    [ADD_EVENT], [paused] is flipped once for each pause key, and [done]
    is set if there is a quit event; the bird's position, the pipe pairs
    already there, the score and [frame_clock] stay as they are. *)
Theorem handle_events_closed_form (d : Z) (evs : list event) (s : Session) :
  handle_events d evs s
  = mk_session
      (if existsb is_jump (handled evs)
       then Bird.set_steps_to_jump (bird s) Bird.JUMP_STEPS else bird s)
      (pipes s ++ repeat (PipePair.init d) (count_events is_add (handled evs)))
      (frame_clock s) (score s)
      (done s || existsb is_quit evs)
      (xorb (paused s) (Nat.odd (count_events is_pause (handled evs)))).
Proof.
  rewrite handle_events_break.
  rewrite (handle_events_quit_free d (handled evs) s (handled_no_quit evs)).
  destruct (existsb is_quit evs).
  - unfold set_done. cbn [bird pipes frame_clock score paused].
    rewrite orb_true_r. reflexivity.
  - rewrite orb_false_r. reflexivity.
Qed.

(** X5.  The events behind a quit event are never handled: whatever
    follows it in the queue of the pass, the outcome is that of the queue
    cut off behind the quit event, and [done] is set. *)
Theorem quit_drops_later_events (d : Z) (pre post : list event) (q : event)
    (s : Session) :
  is_quit q = true ->
  handle_events d (pre ++ q :: post) s = handle_events d (pre ++ [q]) s
  /\ done (handle_events d (pre ++ q :: post) s) = true.
Proof.
  intros Hq.
  assert (Hh : forall rest, handled (pre ++ q :: rest) = handled pre).
  { intros rest. rewrite handled_app. cbn [handled]. rewrite Hq.
    destruct (existsb is_quit pre) eqn:E; [reflexivity|].
    rewrite app_nil_r. symmetry. apply handled_quit_free. exact E. }
  assert (He : forall rest, existsb is_quit (pre ++ q :: rest) = true).
  { intros rest. rewrite existsb_app. cbn [existsb]. rewrite Hq.
    rewrite orb_true_r. reflexivity. }
  rewrite (handle_events_break d (pre ++ q :: post)).
  rewrite (handle_events_break d (pre ++ [q])).
  rewrite !He, !Hh. split; reflexivity.
Qed.

Lemma quit_drops_later_events_witness :
  handle_events 4 [Os MOUSEBUTTONUP; Os QUIT; Os (KEYUP K_p); ADD_EVENT]
                (session_at 240 [])
  = handle_events 4 [Os MOUSEBUTTONUP; Os QUIT] (session_at 240 []).
Proof.
  exact (proj1 (quit_drops_later_events 4 [Os MOUSEBUTTONUP]
                  [Os (KEYUP K_p); ADD_EVENT] (Os QUIT) (session_at 240 [])
                  eq_refl)).
Defined.

(** ** One pass: spawning and the frame *)

Lemma existsb_os (f : event -> bool) (l : list os_event) :
  existsb f (map Os l) = existsb (fun e => f (Os e)) l.
Proof.
  induction l as [|e l IH]; [reflexivity|].
  cbn [map existsb]. rewrite IH. reflexivity.
Qed.

Lemma count_add_os (l : list os_event) :
  count_events is_add (map Os l) = O.
Proof.
  unfold count_events. induction l as [|e l IH]; [reflexivity|].
  cbn [map filter is_add]. exact IH.
Qed.

Lemma count_add_handled_os (l : list os_event) :
  count_events is_add (handled (map Os l)) = O.
Proof.
  unfold count_events. induction l as [|e l IH]; [reflexivity|].
  cbn [map handled]. destruct (is_quit (Os e)); [reflexivity|].
  cbn [filter is_add]. exact IH.
Qed.

Lemma count_events_app (f : event -> bool) (a b : list event) :
  count_events f (a ++ b) = (count_events f a + count_events f b)%nat.
Proof. unfold count_events. rewrite filter_app, length_app. reflexivity. Qed.

Lemma count_none (f : event -> bool) (evs : list event) :
  existsb f evs = false -> count_events f (handled evs) = O.
Proof.
  unfold count_events. induction evs as [|e evs IH]; intros H; [reflexivity|].
  cbn [existsb] in H. apply orb_false_iff in H. destruct H as [He H].
  cbn [handled]. destruct (is_quit e); [reflexivity|].
  cbn [filter]. rewrite He. exact (IH H).
Qed.

Lemma pause_keys_of_pass (posted : bool) (inp : tick_input) :
  existsb is_pause (pygame_event_get posted inp) = toggles_pause inp.
Proof.
  unfold pygame_event_get, toggles_pause, os_events.
  rewrite !existsb_app, !existsb_os.
  destruct posted; cbn [existsb is_pause orb]; reflexivity.
Qed.

(** X6.  The event handling of a pass appends at most one pipe pair to the
    deque, at its back, and exactly one when the pass has posted
    [ADD_EVENT] and no quit event is ahead of it in the queue; the pipe
    pairs already there are not touched. *)
Theorem pass_spawns_at_most_one (inp : tick_input) (s : Session) :
  pipes (handle_events (draw inp)
           (pygame_event_get (posts_add_event s) inp) s)
  = (pipes s
     ++ if posts_add_event s
           && negb (existsb (fun e => is_quit (Os e)) (events_before inp))
        then [PipePair.init (draw inp)] else [])%list.
Proof.
  rewrite handle_events_pipes. f_equal.
  unfold pygame_event_get. rewrite handled_app, existsb_os.
  destruct (existsb (fun e => is_quit (Os e)) (events_before inp)) eqn:Eq.
  - rewrite count_add_handled_os, andb_false_r. reflexivity.
  - rewrite count_events_app, count_add_os, andb_true_r.
    destruct (posts_add_event s).
    + cbn [app handled is_quit]. unfold count_events at 1.
      cbn [filter is_add List.length]. fold (count_events is_add (handled (map Os (events_after inp)))).
      rewrite count_add_handled_os. reflexivity.
    + cbn [app]. rewrite count_add_handled_os. reflexivity.
Qed.

(** X7.  A pass entered with the session neither paused nor done, whose
    events hold no pause key, runs the frame and raises [NameError] at
    [bird.update()], whatever its other events are and whatever state the
    session is in; the loop ends there.  This is so even when the pass
    holds a quit event, since [break] only leaves the [for] loop. *)
Theorem unpaused_pass_raises (inp : tick_input) (rest : list tick_input)
    (s : Session) :
  paused s = false ->
  done s = false ->
  toggles_pause inp = false ->
  main_loop (inp :: rest) s = Raise NameError.
Proof.
  intros Hp Hd Ht. cbn [main_loop]. rewrite Hd. unfold main_tick.
  rewrite handle_events_paused, Hp, count_none.
  - cbn [Nat.odd xorb]. rewrite run_frame_raises. reflexivity.
  - rewrite pause_keys_of_pass. exact Ht.
Qed.

Lemma unpaused_pass_raises_witness :
  main_loop [mk_input [MOUSEBUTTONUP] [QUIT] 4] (session_at 240 [])
  = Raise NameError.
Proof.
  exact (unpaused_pass_raises (mk_input [MOUSEBUTTONUP] [QUIT] 4) []
           (session_at 240 []) eq_refl eq_refl eq_refl).
Defined.

(** ** The deque of pipe pairs *)

(** X8.  Retiring twice in a row removes nothing more. *)
Theorem retire_pipes_idempotent (ps : list PipePair.t) :
  retire_pipes (retire_pipes ps) = retire_pipes ps.
Proof.
  induction ps as [|p ps IH]; [reflexivity|].
  cbn [retire_pipes].
  destruct (PipePair.x p <=? - PipePair.WIDTH) eqn:E; [exact IH|].
  cbn [retire_pipes]. rewrite E. reflexivity.
Qed.

Lemma filter_all (A : Type) (f : A -> bool) (l : list A) :
  Forall (fun a => f a = true) l -> filter f l = l.
Proof.
  induction 1 as [|a l Ha _ IH]; [reflexivity|].
  cbn [filter]. rewrite Ha, IH. reflexivity.
Qed.

(** X9.  The retiring loop only looks at the front of the deque, yet on a
    deque ordered leftmost first it removes every pipe pair with
    [x <= -WIDTH] and no other: it is the filter that keeps the pipe pairs
    with [x > -WIDTH]. *)
Theorem retire_pipes_ordered_filter (ps : list PipePair.t) :
  leftmost_first ps ->
  retire_pipes ps
  = filter (fun p => negb (PipePair.x p <=? - PipePair.WIDTH)) ps.
Proof.
  induction ps as [|p ps IH]; intros Hord; [reflexivity|].
  cbn [retire_pipes filter].
  destruct (PipePair.x p <=? - PipePair.WIDTH) eqn:E; cbn [negb].
  - apply IH. exact (leftmost_first_tail p ps Hord).
  - f_equal. symmetry. apply filter_all.
    pose proof (leftmost_first_bound p ps Hord) as Hb.
    inversion Hb as [|? ? _ Hrest]; subst.
    eapply Forall_impl; [|exact Hrest].
    cbn beta. intros q Hq. apply Z.leb_gt in E.
    apply negb_true_iff. apply Z.leb_gt. lia.
Qed.

Lemma retire_pipes_ordered_filter_witness :
  retire_pipes [pipe_at (-83) true; pipe_at (-80) true; pipe_at 100 false]
  = filter (fun p => negb (PipePair.x p <=? - PipePair.WIDTH))
      [pipe_at (-83) true; pipe_at (-80) true; pipe_at 100 false].
Proof.
  apply retire_pipes_ordered_filter.
  unfold leftmost_first. cbn [map pipe_at PipePair.x].
  repeat constructor; cbn; lia.
Defined.

(** X10 is [deque_stays_ordered] above; here it is at work on a deque of
    two with a spawn. *)
Lemma deque_stays_ordered_witness :
  leftmost_first
    (move_pipes (retire_pipes ([pipe_at (-80) true; pipe_at 460 false]
                               ++ [PipePair.init 4]))).
Proof.
  refine (proj1 (deque_stays_ordered (Some 4)
                   [pipe_at (-80) true; pipe_at 460 false] _ _)).
  - unfold leftmost_first. cbn [map pipe_at PipePair.x].
    repeat constructor; cbn; lia.
  - repeat constructor; cbn; discriminate.
Defined.

(** ** Scoring over the life of the deque *)

Lemma scored_pipe_scores_no_more (bird_x : Z) (p : PipePair.t) :
  scores bird_x
    (if scores bird_x p then PipePair.set_score_counted p true else p) = false.
Proof.
  destruct (scores bird_x p) eqn:E; [|exact E].
  apply counted_never_scores. reflexivity.
Qed.

(** X11.  The scoring loop is idempotent: run again at once on its own
    result, with no movement in between, it changes neither a flag nor the
    score. *)
Theorem update_score_idempotent (bird_x : Z) (ps : list PipePair.t) (sc : Z) :
  let r := update_score bird_x ps sc in
  update_score bird_x (fst r) (snd r) = r.
Proof.
  cbn zeta. rewrite (update_score_spec bird_x ps sc). cbn [fst snd].
  rewrite update_score_spec. f_equal.
  - induction ps as [|p ps IH]; [reflexivity|].
    cbn [map]. rewrite IH, scored_pipe_scores_no_more. reflexivity.
  - replace (filter (scores bird_x) (map _ ps)) with (@nil PipePair.t);
      [cbn [List.length]; lia|].
    induction ps as [|p ps IH]; [reflexivity|].
    cbn [map filter]. rewrite scored_pipe_scores_no_more. exact IH.
Qed.

Lemma retire_counted_pending (ps : list PipePair.t) :
  counted_behind_edge ps -> pending (retire_pipes ps) = pending ps.
Proof.
  unfold counted_behind_edge, pending.
  induction 1 as [|p ps Hp _ IH]; [reflexivity|].
  cbn [retire_pipes].
  destruct (PipePair.x p <=? - PipePair.WIDTH) eqn:E; [|reflexivity].
  apply Z.leb_le in E. cbn [filter]. rewrite (Hp E). cbn [negb]. exact IH.
Qed.

Lemma update_score_counts_behind_edge (bird_x : Z) (ps : list PipePair.t)
    (sc : Z) :
  0 < bird_x ->
  counted_behind_edge (fst (update_score bird_x ps sc)).
Proof.
  intros Hb. rewrite update_score_spec. cbn [fst].
  unfold counted_behind_edge. rewrite Forall_map.
  apply Forall_forall. intros p _ Hx.
  destruct (scores bird_x p) eqn:E; [reflexivity|].
  cbn [PipePair.x] in Hx. unfold scores in E.
  apply andb_false_iff in E. destruct E as [E | E].
  - apply Z.ltb_ge in E. lia.
  - apply negb_false_iff in E. exact E.
Qed.

(** X12.  No uncounted pipe pair is retired behind the scoring loop.  With
    the bird right of [x = 0], the scoring loop leaves every pipe pair
    with [x <= -WIDTH] flagged, whatever deque and score it is run on; and
    the retiring loop, run on a deque in which the pipe pairs with
    [x <= -WIDTH] are flagged, removes flagged pipe pairs only. *)
Theorem no_uncounted_pipe_retired (bird_x : Z) :
  0 < bird_x ->
  (forall (ps : list PipePair.t) (sc : Z),
      counted_behind_edge (fst (update_score bird_x ps sc)))
  /\ (forall ps : list PipePair.t,
        counted_behind_edge ps ->
        pending (retire_pipes ps) = pending ps
        /\ exists gone : list PipePair.t,
             ps = (gone ++ retire_pipes ps)%list
             /\ Forall (fun p => PipePair.score_counted p = true) gone).
Proof.
  intros Hb. split.
  - intros ps sc. apply update_score_counts_behind_edge. exact Hb.
  - intros ps Hinv. split; [apply retire_counted_pending; exact Hinv|].
    destruct (retire_pipes_split ps) as [gone [Heq Hgone]].
    exists gone. split; [exact Heq|].
    unfold counted_behind_edge in Hinv. rewrite Heq in Hinv.
    apply Forall_app in Hinv. destruct Hinv as [Hinv _].
    rewrite Forall_forall in *. intros p Hin.
    exact (Hinv p Hin (Hgone p Hin)).
Qed.

Lemma no_uncounted_pipe_retired_witness :
  counted_behind_edge
    (fst (update_score 50 [pipe_at (-81) false; pipe_at 100 false] 0))
  /\ pending (retire_pipes [pipe_at (-81) true; pipe_at 100 false])
     = pending [pipe_at (-81) true; pipe_at 100 false].
Proof.
  assert (Hb : 0 < 50) by reflexivity.
  split.
  - exact (proj1 (no_uncounted_pipe_retired 50 Hb)
             [pipe_at (-81) false; pipe_at 100 false] 0).
  - refine (proj1 (proj2 (no_uncounted_pipe_retired 50 Hb)
                     [pipe_at (-81) true; pipe_at 100 false] _)).
    unfold counted_behind_edge.
    constructor; [intros _; reflexivity|].
    constructor; [|constructor].
    unfold PipePair.WIDTH. cbn [pipe_at PipePair.x]. intros H. lia.
Defined.

(** ** Collision geometry *)

Lemma colliderect_positive (a b : Rect) :
  0 < width a -> 0 < height a -> 0 < width b -> 0 < height b ->
  (colliderect a b = true
   <-> left a < left b + width b /\ left b < left a + width a
       /\ top a < top b + height b /\ top b < top a + height a).
Proof.
  intros Hwa Hha Hwb Hhb. unfold colliderect.
  assert (Hz : (width a =? 0) || (height a =? 0) || (width b =? 0)
               || (height b =? 0) = false).
  { rewrite !orb_false_iff, !Z.eqb_neq. lia. }
  rewrite Hz.
  rewrite (Z.min_l (left a)), (Z.min_l (top a)), (Z.min_l (left b)),
    (Z.min_l (top b)), (Z.max_r (left a)), (Z.max_r (top a)),
    (Z.max_r (left b)), (Z.max_r (top b)) by lia.
  rewrite !andb_true_iff, !Z.ltb_lt, !Z.gtb_lt. tauto.
Qed.

(** X13.  For a pipe pair with at least one piece in each pipe and a
    rectangle of positive width and height, [collides_with] holds exactly
    when the rectangle overlaps the pipe pair's column, from [x] to
    [x + WIDTH], and reaches above the lower end of the top pipe or below
    the upper end of the bottom pipe; touching edges do not collide. *)
Theorem collides_with_geometry (p : PipePair.t) (r : Rect) :
  1 <= PipePair.top_pieces p ->
  1 <= PipePair.bottom_pieces p ->
  0 < width r ->
  0 < height r ->
  (PipePair.collides_with p r = true
   <-> (left r < PipePair.x p + PipePair.WIDTH
        /\ PipePair.x p < left r + width r)
       /\ ((top r < PipePair.top_height_px p /\ 0 < top r + height r)
           \/ (top r < WIN_HEIGHT
               /\ WIN_HEIGHT - PipePair.bottom_height_px p < top r + height r))).
Proof.
  intros Ht Hb Hw Hh.
  assert (Hth : 0 < PipePair.top_height_px p)
    by (unfold PipePair.top_height_px, PipePair.PIECE_HEIGHT; lia).
  assert (Hbh : 0 < PipePair.bottom_height_px p)
    by (unfold PipePair.bottom_height_px, PipePair.PIECE_HEIGHT; lia).
  rewrite collides_with_spec.
  rewrite (colliderect_positive r (PipePair.top_rect p)), 
    (colliderect_positive r (PipePair.bottom_rect p));
    try assumption; try (cbn; unfold PipePair.WIDTH; lia).
  unfold PipePair.top_rect, PipePair.bottom_rect.
  cbn [left top width height]. lia.
Qed.

Lemma collides_with_geometry_witness :
  PipePair.collides_with (pipe_at 40 false) (Bird.rect (bird_at 224)) = false
  /\ PipePair.collides_with (pipe_at 40 false) (Bird.rect (bird_at 223)) = true.
Proof.
  split; [reflexivity|].
  apply (collides_with_geometry (pipe_at 40 false) (Bird.rect (bird_at 223)));
    vm_compute; repeat split; try discriminate.
  left. split; reflexivity.
Defined.

(** X14.  For a draw that [randint] can return, the top pipe is between 1
    and 10 pieces high and the bottom pipe between 2 and 11 (only the top
    pipe can be an end piece alone), together they take 384 of the 512
    pixels, and the new pipe pair stands at [x = WIN_WIDTH], not yet
    counted. *)
Theorem init_heights (d : Z) :
  1 <= d <= PipePair.total_pipe_body_pieces ->
  let p := PipePair.init d in
  PipePair.PIECE_HEIGHT <= PipePair.top_height_px p <= 10 * PipePair.PIECE_HEIGHT
  /\ 2 * PipePair.PIECE_HEIGHT <= PipePair.bottom_height_px p
                               <= 11 * PipePair.PIECE_HEIGHT
  /\ PipePair.top_height_px p + PipePair.bottom_height_px p = 384
  /\ PipePair.x p = WIN_WIDTH
  /\ PipePair.score_counted p = false.
Proof.
  rewrite total_pipe_body_pieces_value. intros Hd p. subst p.
  unfold PipePair.init, PipePair.top_height_px, PipePair.bottom_height_px.
  cbn [PipePair.top_pieces PipePair.bottom_pieces PipePair.x
       PipePair.score_counted].
  rewrite total_pipe_body_pieces_value. unfold PipePair.PIECE_HEIGHT.
  repeat split; lia.
Qed.

Lemma init_heights_witness :
  PipePair.top_height_px (PipePair.init 10) = 32
  /\ 2 * PipePair.PIECE_HEIGHT <= PipePair.bottom_height_px (PipePair.init 10).
Proof.
  split; [reflexivity|].
  refine (proj1 (proj1 (proj2 (init_heights 10 _)))).
  vm_compute. split; discriminate.
Defined.

(** X15.  Every pipe pair that [PipePair.__init__] can build is passable
    wherever it stands: a bird whose [y] is an int between the top pipe's
    height and 96 pixels below it does not collide with it, at any [x] of
    either, and is inside the window's bounds, so the check of the pass
    leaves [done] false. *)
Theorem bird_in_gap_is_safe (d px : Z) (b : Bird.t) (yz : Z)
    (fc sc : Z) (pa : bool) :
  1 <= d <= PipePair.total_pipe_body_pieces ->
  Bird.y b = Int yz ->
  let p := PipePair.set_x (PipePair.init d) px in
  PipePair.top_height_px p <= yz <= PipePair.top_height_px p + 96 ->
  PipePair.collides_with p (Bird.rect b) = false
  /\ done (check_collisions (mk_session b [p] fc sc false pa)) = false.
Proof.
  intros Hd Hy p Hband.
  pose proof (init_pieces_sum d) as Hsum.
  rewrite total_pipe_body_pieces_value in Hd, Hsum.
  assert (Htp : PipePair.top_pieces p = 10 - d + 1) by reflexivity.
  assert (Hbp : PipePair.bottom_pieces p = d + 1) by reflexivity.
  assert (Hth : PipePair.top_height_px p = (10 - d + 1) * 32)
    by (unfold PipePair.top_height_px; rewrite Htp; reflexivity).
  assert (Hbh : PipePair.bottom_height_px p = (d + 1) * 32)
    by (unfold PipePair.bottom_height_px; rewrite Hbp; reflexivity).
  assert (Hno : PipePair.collides_with p (Bird.rect b) = false).
  { destruct (PipePair.collides_with p (Bird.rect b)) eqn:E; [|reflexivity].
    exfalso.
    apply (collides_with_geometry p (Bird.rect b)) in E;
      [| lia | lia | reflexivity | reflexivity].
    unfold Bird.rect in E. rewrite Hy in E.
    cbn [left top width height num_int] in E.
    unfold Bird.HEIGHT, WIN_HEIGHT in E. lia. }
  split; [exact Hno|].
  rewrite check_collisions_done. unfold pipe_collision.
  cbn [done bird pipes existsb]. rewrite Hno, Hy.
  cbn [orb num_le]. unfold WIN_HEIGHT, Bird.HEIGHT.
  apply orb_false_iff. split; apply Z.leb_gt; lia.
Qed.

Lemma bird_in_gap_is_safe_witness :
  PipePair.collides_with (PipePair.set_x (PipePair.init 4) 40)
                         (Bird.rect (bird_at 240)) = false.
Proof.
  refine (proj1 (bird_in_gap_is_safe 4 40 (bird_at 240) 240 0 0 false
                   _ eq_refl _)).
  - vm_compute. split; discriminate.
  - vm_compute. split; discriminate.
Defined.
